(** * fenicsx-pulse: constitutive composition of a cardiac material

    A shallow embedding of [fenicsx_pulse/compressibility.py] and
    [fenicsx_pulse/cardiac_model.py].

    - Expressions are the values of an external symbolic tensor library
      (UFL).  The operators the two modules apply to them form the
      interface [ExprOps]; two implementers are given: the free syntax
      trees [term], on which everything computes, and the real numbers,
      on which an expression over numbers has a value.
    - [Incompressible] and [Compressible] are mutable Python objects; the
      frozen [CardiacModel] only holds a reference to one of them.  The
      objects live in a store ([gmap loc CompressibilityObj]) and the
      methods are programs of a small state and exception monad that also
      keeps the trace of the capability calls made. *)

From Stdlib Require Import QArith Reals Lra.
From stdpp Require Import gmap strings list.

Local Open Scope string_scope.
Local Open Scope list_scope.

(** ** Python numbers appearing as literals *)

(** [PyInt n] is an [int] literal, [PyFloat q] a [float] one.  The quotient
    [-1 / 3] of the source is a [float]; it is kept as the exact rational. *)
Inductive pynum : Type :=
  | PyInt (n : Z)
  | PyFloat (q : Q).

(** ** The tensor-expression interface *)

(** The operators of the expression library used by the two modules:
    [+], [-], [*], [**], [ufl.ln], the coercion of a Python number, and
    [kinematics.Jacobian].

    [Jacobian] belongs to the module [kinematics], which is outside the
    two modules embedded here; it is a parameter of the development (the
    determinant of its argument). *)
Class ExprOps (E : Type) : Type := {
  lit : pynum -> E;
  add : E -> E -> E;
  sub : E -> E -> E;
  mul : E -> E -> E;
  pow : E -> E -> E;
  ln : E -> E;
  Jacobian : E -> E
}.

(** *** Free syntax trees *)

Inductive term : Type :=
  | Sym (name : string)
  | Lit (c : pynum)
  | Add (a b : term)
  | Sub (a b : term)
  | Mul (a b : term)
  | Pow (a b : term)
  | Ln (a : term)
  | Det (a : term).

#[export] Instance term_ops : ExprOps term := {|
  lit := Lit; add := Add; sub := Sub; mul := Mul; pow := Pow;
  ln := Ln; Jacobian := Det
|}.

(** *** Real numbers: scalars, and tensors of order zero *)

Definition pynum_value (c : pynum) : R :=
  match c with
  | PyInt n => IZR n
  | PyFloat q => Q2R q
  end.

#[export] Instance real_ops : ExprOps R := {|
  lit := pynum_value; add := Rplus; sub := Rminus; mul := Rmult;
  pow := Rpower; ln := Rpower.ln; Jacobian := fun x => x
|}.

(** ** Exceptions *)

(** [exceptions.MissingModelAttribute(attr, model)] is the only exception
    the two modules raise.  [InvalidReference] has no Python counterpart
    (a Python reference always denotes a live object of the expected
    class); it makes a lookup in the store total. *)
Inductive exn : Type :=
  | MissingModelAttribute (attr model : string)
  | InvalidReference.

Inductive outcome (A : Type) : Type :=
  | Returns (a : A)
  | Raises (e : exn).
Arguments Returns {A} a.
Arguments Raises {A} e.

Definition loc := nat.

Section Model.

Context {E : Type} `{ExprOps E}.

(** ** Objects *)

(** The two dataclasses of [compressibility.py] with their fields:
    [Incompressible.p] (default [None], not an [__init__] argument) and
    [Compressible.kappa] (default [1e3]). *)
Inductive CompressibilityObj : Type :=
  | Incompressible (p : option E)
  | Compressible (kappa : E).

Definition new_Incompressible : CompressibilityObj := Incompressible None.
Definition default_kappa : E := lit (PyFloat 1000).

(** [type(self).__name__] *)
Definition type_name (o : CompressibilityObj) : string :=
  match o with
  | Incompressible _ => "Incompressible"
  | Compressible _ => "Compressible"
  end.

(** The protocols [HyperElasticMaterial] and [ActiveModel] of
    [cardiac_model.py]: capabilities that return an expression. *)
Record HyperElasticMaterial : Type := {
  material_strain_energy : E -> E
}.

Record ActiveModel : Type := {
  active_strain_energy : E -> E;
  active_Fe : E -> E
}.

(** [CardiacModel] is a frozen dataclass: an immutable triple, whose third
    field refers to a compressibility object of the store. *)
Record CardiacModel : Type := {
  material : HyperElasticMaterial;
  active : ActiveModel;
  compressibility : loc
}.

(** ** Capability calls, as observed by a recording stub *)
Inductive event : Type :=
  | CallRegister (self : loc) (p : option E)
  | CallFe (F : E)
  | CallJacobian (F : E)
  | CallIsCompressible (self : loc)
  | CallMaterialEnergy (F : E)
  | CallActiveEnergy (F : E)
  | CallVolumetricEnergy (self : loc) (J : E).

(** ** State *)
Record world : Type := {
  heap : gmap loc CompressibilityObj;
  trace : list event
}.

Definition M (A : Type) : Type := world -> outcome A * world.

Definition ret {A} (a : A) : M A := fun w => (Returns a, w).

Definition bind {A B} (m : M A) (k : A -> M B) : M B :=
  fun w =>
    match m w with
    | (Returns a, w') => k a w'
    | (Raises e, w') => (Raises e, w')
    end.

Definition raise {A} (e : exn) : M A := fun w => (Raises e, w).

Definition get_obj (l : loc) : M CompressibilityObj :=
  fun w =>
    match heap w !! l with
    | Some o => (Returns o, w)
    | None => (Raises InvalidReference, w)
    end.

Definition set_obj (l : loc) (o : CompressibilityObj) : M unit :=
  fun w => (Returns tt, {| heap := <[l := o]> (heap w); trace := trace w |}).

Definition record (ev : event) : M unit :=
  fun w => (Returns tt, {| heap := heap w; trace := trace w ++ [ev] |}).

End Model.

Arguments CompressibilityObj E : clear implicits.
Arguments HyperElasticMaterial E : clear implicits.
Arguments ActiveModel E : clear implicits.
Arguments CardiacModel E : clear implicits.
Arguments event E : clear implicits.
Arguments world E : clear implicits.
Arguments M E A : clear implicits.

#[export] Instance M_ret {E} : MRet (M E) := @ret E.
#[export] Instance M_bind {E} : MBind (M E) := fun A B k m => bind m k.

Section Methods.

Context {E : Type} `{ExprOps E}.

(** ** [compressibility.py] *)

(** Reading the attributes [self.p] and [self.kappa]. *)
Definition get_p (self : loc) : M E (option E) :=
  o ← get_obj self;
  match o with
  | Incompressible p => mret p
  | Compressible _ => raise InvalidReference
  end.

Definition get_kappa (self : loc) : M E E :=
  o ← get_obj self;
  match o with
  | Compressible kappa => mret kappa
  | Incompressible _ => raise InvalidReference
  end.

(** [Compressibility.register(self, *args, **kwargs)]: [pass].
    [Compressible] inherits it. *)
Definition Compressibility_register (self : loc) (args : option E) : M E unit :=
  mret tt.

(** [Incompressible.register(self, p)]: [self.p = p]. *)
Definition Incompressible_register (self : loc) (p : option E) : M E unit :=
  set_obj self (Incompressible p).

(** [Incompressible.strain_energy(self, J)] *)
Definition Incompressible_strain_energy (self : loc) (J : E) : M E E :=
  p ← get_p self;
  match p with
  | None =>
      o ← get_obj self;
      raise (MissingModelAttribute "p" (type_name o))
  | Some p => mret (mul p (sub J (lit (PyFloat 1))))
  end.

(** [Incompressible.is_compressible(self)] *)
Definition Incompressible_is_compressible (self : loc) : M E bool :=
  mret false.

(** [Compressible.strain_energy(self, J)] *)
Definition Compressible_strain_energy (self : loc) (J : E) : M E E :=
  kappa ← get_kappa self;
  mret (mul kappa (add (sub (mul J (ln J)) J) (lit (PyInt 1)))).

(** [Compressible.is_compressible(self)] *)
Definition Compressible_is_compressible (self : loc) : M E bool :=
  mret true.

(** Method resolution: the class of the object [self] refers to selects
    the method. *)
Definition register (self : loc) (p : option E) : M E unit :=
  o ← get_obj self;
  match o with
  | Incompressible _ => Incompressible_register self p
  | Compressible _ => Compressibility_register self p
  end.

Definition strain_energy (self : loc) (J : E) : M E E :=
  o ← get_obj self;
  match o with
  | Incompressible _ => Incompressible_strain_energy self J
  | Compressible _ => Compressible_strain_energy self J
  end.

Definition is_compressible (self : loc) : M E bool :=
  o ← get_obj self;
  match o with
  | Incompressible _ => Incompressible_is_compressible self
  | Compressible _ => Compressible_is_compressible self
  end.

(** ** [cardiac_model.py] *)

(** The calls [CardiacModel.strain_energy] makes on its collaborators;
    each leaves its mark on the trace before it runs. *)
Definition call_register (c : loc) (p : option E) : M E unit :=
  record (CallRegister c p);; register c p.

Definition call_Fe (a : ActiveModel E) (F : E) : M E E :=
  record (CallFe F);; mret (active_Fe a F).

Definition call_Jacobian (F : E) : M E E :=
  record (CallJacobian F);; mret (Jacobian F).

Definition call_is_compressible (c : loc) : M E bool :=
  record (CallIsCompressible c);; is_compressible c.

Definition call_material_energy (m : HyperElasticMaterial E) (F : E) : M E E :=
  record (CallMaterialEnergy F);; mret (material_strain_energy m F).

Definition call_active_energy (a : ActiveModel E) (F : E) : M E E :=
  record (CallActiveEnergy F);; mret (active_strain_energy a F).

Definition call_volumetric_energy (c : loc) (J : E) : M E E :=
  record (CallVolumetricEnergy c J);; strain_energy c J.

(** [CardiacModel.strain_energy(self, F, p=None)] *)
Definition CardiacModel_strain_energy
    (self : CardiacModel E) (F : E) (p : option E) : M E E :=
  call_register (compressibility self) p;;
  Fe ← call_Fe (active self) F;
  J ← call_Jacobian Fe;
  b ← call_is_compressible (compressibility self);
  let Jm13 := if b : bool then pow J (lit (PyFloat (-1 # 3))) else lit (PyFloat 1) in
  psi_m ← call_material_energy (material self) (mul Jm13 Fe);
  psi_a ← call_active_energy (active self) (mul Jm13 F);
  psi_v ← call_volumetric_energy (compressibility self) J;
  mret (add (add psi_m psi_a) psi_v).

End Methods.

(** ** Observations on traces and outcomes *)

Section Observations.

Context {E : Type}.

Definition outcome_map {A B} (f : A -> B) (r : outcome A) : outcome B :=
  match r with
  | Returns a => Returns (f a)
  | Raises e => Raises e
  end.

(** The arguments the material, the active and the register capability
    were called with, in the order of the calls. *)
Fixpoint material_energy_args (t : list (event E)) : list E :=
  match t with
  | [] => []
  | CallMaterialEnergy X :: t' => X :: material_energy_args t'
  | _ :: t' => material_energy_args t'
  end.

Fixpoint active_energy_args (t : list (event E)) : list E :=
  match t with
  | [] => []
  | CallActiveEnergy X :: t' => X :: active_energy_args t'
  | _ :: t' => active_energy_args t'
  end.

Fixpoint register_args (t : list (event E)) : list (loc * option E) :=
  match t with
  | [] => []
  | CallRegister l p :: t' => (l, p) :: register_args t'
  | _ :: t' => register_args t'
  end.

(** The class of an object decides the answer of [is_compressible]. *)
Definition class_is_compressible (o : CompressibilityObj E) : bool :=
  match o with
  | Incompressible _ => false
  | Compressible _ => true
  end.

(** The class of the object at [l], as [is_compressible] sees it. *)
Definition class_at (w : world E) (l : loc) : option bool :=
  class_is_compressible <$> heap w !! l.

End Observations.

(** ** Sequences of calls *)

Section Sequences.

Context {E : Type} `{ExprOps E}.

(** [register] called once for each element of [ps], in order. *)
Fixpoint register_seq (self : loc) (ps : list (option E)) : M E unit :=
  match ps with
  | [] => mret tt
  | p :: ps' => register self p;; register_seq self ps'
  end.

(** What a client can do with the objects of the two modules. *)
Inductive action : Type :=
  | DoRegister (self : loc) (p : option E)
  | DoStrainEnergy (self : loc) (J : E)
  | DoIsCompressible (self : loc)
  | DoCardiacStrainEnergy (m : CardiacModel E) (F : E) (p : option E).

(** The world after an action; an exception leaves the world as it was
    when it was raised. *)
Definition perform (a : action) (w : world E) : world E :=
  match a with
  | DoRegister l p => snd (register l p w)
  | DoStrainEnergy l J => snd (strain_energy l J w)
  | DoIsCompressible l => snd (is_compressible l w)
  | DoCardiacStrainEnergy m F p => snd (CardiacModel_strain_energy m F p w)
  end.

Definition perform_all (acts : list action) (w : world E) : world E :=
  foldl (fun w a => perform a w) w acts.

End Sequences.

Arguments action E : clear implicits.

(** ** One evaluation of [CardiacModel.strain_energy], call by call *)

Section Calls.

Context {E : Type} `{ExprOps E}.

(** The scaling factor [Jm13] chosen for an object of a given class. *)
Definition Jm13_for (o : CompressibilityObj E) (J : E) : E :=
  if class_is_compressible o then pow J (lit (PyFloat (-1 # 3))) else lit (PyFloat 1).

(** The calls of one evaluation, in order. *)
Definition calls_of (m : CardiacModel E) (o : CompressibilityObj E) F p : list (event E) :=
  let c := compressibility m in
  let Fe := active_Fe (active m) F in
  let J := Jacobian Fe in
  [ CallRegister c p; CallFe F; CallJacobian Fe; CallIsCompressible c;
    CallMaterialEnergy (mul (Jm13_for o J) Fe);
    CallActiveEnergy (mul (Jm13_for o J) F);
    CallVolumetricEnergy c J ].

End Calls.

(** ** A product that drops a unit factor *)

(** Symbolic libraries build products with simplifying constructors; this
    implementer of the interface returns the other factor when the left
    one is the number one. *)
Definition is_one (c : pynum) : bool :=
  match c with
  | PyInt n => Z.eqb n 1
  | PyFloat q => Qeq_bool q 1
  end.

Definition simpl_mul (a b : term) : term :=
  match a with
  | Lit c => if is_one c then b else Mul a b
  | _ => Mul a b
  end.

Definition simplifying_term_ops : ExprOps term := {|
  lit := Lit; add := Add; sub := Sub; mul := simpl_mul; pow := Pow;
  ln := Ln; Jacobian := Det
|}.

(** ** The volumetric penalty over the reals *)

(** [J ln(J) - J + 1], the factor of [kappa] in [Compressible.strain_energy],
    and the difference of its values at equal distances below and above
    [J = 1]. *)
Definition penalty (J : R) : R := (J * Rpower.ln J - J + 1)%R.

Definition penalty_gap (h : R) : R := (penalty (1 - h) - penalty (1 + h))%R.

(** ** Sample data *)

Module Sample.

Definition F : term := Sym "F".
Definition p : term := Sym "p".
Definition Fe_sample : term := Mul (Sym "F") (Sym "Fa_inv").
Definition one : term := Lit (PyFloat 1).
Definition minus_third : term := Lit (PyFloat (-1 # 3)).

Definition stub_material : HyperElasticMaterial term :=
  {| material_strain_energy := fun X => Mul (Sym "mu") X |}.

(** An active-strain stub: [Fe] differs from [F]. *)
Definition stub_active : ActiveModel term :=
  {| active_strain_energy := fun X => Mul (Sym "Ta") X;
     active_Fe := fun X => Mul X (Sym "Fa_inv") |}.

Definition model : CardiacModel term :=
  {| material := stub_material; active := stub_active; compressibility := 0%nat |}.

Definition fresh_incompressible : world term :=
  {| heap := {[ 0%nat := new_Incompressible ]}; trace := [] |}.

Definition registered_incompressible : world term :=
  {| heap := {[ 0%nat := Incompressible (Some p) ]}; trace := [] |}.

Definition compressible : world term :=
  {| heap := {[ 0%nat := Compressible default_kappa ]}; trace := [] |}.

Definition real_compressible : world R :=
  {| heap := {[ 0%nat := Compressible default_kappa ]}; trace := [] |}.

End Sample.

(** ** [__str__] *)

Section Printing.

Context {E : Type} `{ExprOps E}.

(** [Incompressible.__str__(self)] *)
Definition Incompressible_str (self : loc) : M E string :=
  mret "p (J - 1)".

(** [Compressible.__str__(self)]; the first character is the Greek letter
    kappa, two bytes in UTF-8. *)
Definition Compressible_str (self : loc) : M E string :=
  mret "κ (J ln(J) - J + 1)".

(** [str(self)]: the class of the object selects the method. *)
Definition str (self : loc) : M E string :=
  o ← get_obj self;
  match o with
  | Incompressible _ => Incompressible_str self
  | Compressible _ => Compressible_str self
  end.

(** What an object is constructed with: its class and, for [Compressible],
    its coefficient.  The multiplier slot, the only attribute a method
    assigns, is left out. *)
Definition configuration (o : CompressibilityObj E) : CompressibilityObj E :=
  match o with
  | Incompressible _ => Incompressible None
  | Compressible kappa => Compressible kappa
  end.

Definition configuration_at (w : world E) (l : loc) : option (CompressibilityObj E) :=
  configuration <$> heap w !! l.

End Printing.

(** ** Real scalars and real tensors *)

(** An implementer of the expression interface with real scalars and the
    tensors of a type [T] that has a scaling and a determinant.  It gives
    the operations the two modules perform: arithmetic on scalars, the
    product of a scalar and a tensor, and the Jacobian of a tensor.
    [Undefined] stands for the result of every other combination. *)
Section RealTensors.

Variable T : Type.
Variable scale : R -> T -> T.
Variable det : T -> R.

Inductive value : Type :=
  | Scalar (x : R)
  | Tensor (t : T)
  | Undefined.

Definition value_add (a b : value) : value :=
  match a, b with
  | Scalar x, Scalar y => Scalar (x + y)
  | _, _ => Undefined
  end.

Definition value_sub (a b : value) : value :=
  match a, b with
  | Scalar x, Scalar y => Scalar (x - y)
  | _, _ => Undefined
  end.

Definition value_mul (a b : value) : value :=
  match a, b with
  | Scalar x, Scalar y => Scalar (x * y)
  | Scalar x, Tensor t => Tensor (scale x t)
  | Tensor t, Scalar x => Tensor (scale x t)
  | _, _ => Undefined
  end.

Definition value_pow (a b : value) : value :=
  match a, b with
  | Scalar x, Scalar y => Scalar (Rpower x y)
  | _, _ => Undefined
  end.

Definition value_ln (a : value) : value :=
  match a with
  | Scalar x => Scalar (Rpower.ln x)
  | _ => Undefined
  end.

Definition value_Jacobian (a : value) : value :=
  match a with
  | Tensor t => Scalar (det t)
  | _ => Undefined
  end.

Definition value_ops : ExprOps value := {|
  lit := fun c => Scalar (pynum_value c);
  add := value_add; sub := value_sub; mul := value_mul; pow := value_pow;
  ln := value_ln; Jacobian := value_Jacobian
|}.

End RealTensors.

Arguments Scalar {T} x.
Arguments Tensor {T} t.
Arguments Undefined {T}.

(** *** Diagonal tensors of order two in three dimensions *)

Record diag : Type := Diag { d1 : R; d2 : R; d3 : R }.

Definition diag_scale (s : R) (d : diag) : diag :=
  Diag (s * d1 d) (s * d2 d) (s * d3 d).

Definition diag_det (d : diag) : R := (d1 d * d2 d * d3 d)%R.

#[export] Instance diag_ops : ExprOps (value diag) := value_ops diag diag_scale diag_det.

Module RealSample.

Definition shear_free : diag := Diag 2 (1 / 2) 1.

Definition stub_material : HyperElasticMaterial (value diag) :=
  {| material_strain_energy :=
       fun X => match X with Tensor d => Scalar (d1 d + d2 d + d3 d - 3) | _ => Undefined end |}.

Definition stub_active : ActiveModel (value diag) :=
  {| active_strain_energy :=
       fun X => match X with Tensor d => Scalar (d1 d - 1) | _ => Undefined end;
     active_Fe := fun X => X |}.

Definition compressible_model : CardiacModel (value diag) :=
  {| material := stub_material; active := stub_active; compressibility := 0%nat |}.

Definition incompressible_model : CardiacModel (value diag) :=
  {| material := stub_material; active := stub_active; compressibility := 1%nat |}.

Definition store : world (value diag) :=
  {| heap := {[ 0%nat := Compressible default_kappa; 1%nat := new_Incompressible ]};
     trace := [] |}.

End RealSample.

(** A second model on the syntax trees, with an object of its own. *)
Module Sample2.

Definition model_b : CardiacModel term :=
  {| material := Sample.stub_material; active := Sample.stub_active;
     compressibility := 1%nat |}.

Definition two_objects : world term :=
  {| heap := {[ 0%nat := new_Incompressible; 1%nat := Compressible default_kappa ]};
     trace := [] |}.

End Sample2.

(** * Properties *)

(** ** Running the methods *)

Section Runs.

Context {E : Type} `{ExprOps E}.

Implicit Types (w : world E) (l c : loc) (F J : E) (p q : option E).

Lemma bind_returns {A B} (m : M E A) (k : A -> M E B) w a w' :
  m w = (Returns a, w') -> (m ≫= k) w = k a w'.
Proof. intros Hm. unfold mbind, M_bind, bind. now rewrite Hm. Qed.

Lemma bind_raises {A B} (m : M E A) (k : A -> M E B) w e w' :
  m w = (Raises e, w') -> (m ≫= k) w = (Raises e, w').
Proof. intros Hm. unfold mbind, M_bind, bind. now rewrite Hm. Qed.

Lemma get_obj_some l o w :
  heap w !! l = Some o -> get_obj l w = (Returns o, w).
Proof. intros Hl. unfold get_obj. now rewrite Hl. Qed.

Lemma get_obj_none l w :
  heap w !! l = None -> get_obj l w = (Raises InvalidReference, w).
Proof. intros Hl. unfold get_obj. now rewrite Hl. Qed.

Lemma world_eta w : {| heap := heap w; trace := trace w |} = w.
Proof. now destruct w. Qed.

(** *** [register] *)

Lemma register_incompressible l q p w :
  heap w !! l = Some (Incompressible q) ->
  register l p w =
    (Returns tt, {| heap := <[l := Incompressible p]> (heap w); trace := trace w |}).
Proof.
  intros Hl. unfold register.
  now rewrite (bind_returns _ _ _ _ _ (get_obj_some _ _ _ Hl)).
Qed.

Lemma register_compressible l kappa p w :
  heap w !! l = Some (Compressible kappa) ->
  register l p w = (Returns tt, w).
Proof.
  intros Hl. unfold register.
  now rewrite (bind_returns _ _ _ _ _ (get_obj_some _ _ _ Hl)).
Qed.

Lemma register_invalid l p w :
  heap w !! l = None -> register l p w = (Raises InvalidReference, w).
Proof.
  intros Hl. unfold register.
  now rewrite (bind_raises _ _ _ _ _ (get_obj_none _ _ Hl)).
Qed.

(** *** [is_compressible] *)

Lemma is_compressible_some l o w :
  heap w !! l = Some o ->
  is_compressible l w = (Returns (class_is_compressible o), w).
Proof.
  intros Hl. unfold is_compressible.
  rewrite (bind_returns _ _ _ _ _ (get_obj_some _ _ _ Hl)).
  now destruct o.
Qed.

Lemma is_compressible_invalid l w :
  heap w !! l = None -> is_compressible l w = (Raises InvalidReference, w).
Proof.
  intros Hl. unfold is_compressible.
  now rewrite (bind_raises _ _ _ _ _ (get_obj_none _ _ Hl)).
Qed.

(** *** [strain_energy] *)

Lemma get_p_incompressible l q w :
  heap w !! l = Some (Incompressible q) -> get_p l w = (Returns q, w).
Proof.
  intros Hl. unfold get_p.
  now rewrite (bind_returns _ _ _ _ _ (get_obj_some _ _ _ Hl)).
Qed.

Lemma get_kappa_compressible l (kappa : E) w :
  heap w !! l = Some (Compressible kappa) -> get_kappa l w = (Returns kappa, w).
Proof.
  intros Hl. unfold get_kappa.
  now rewrite (bind_returns _ _ _ _ _ (get_obj_some _ _ _ Hl)).
Qed.

Lemma Incompressible_strain_energy_unset l J w :
  heap w !! l = Some (Incompressible None) ->
  Incompressible_strain_energy l J w =
    (Raises (MissingModelAttribute "p" "Incompressible"), w).
Proof.
  intros Hl. unfold Incompressible_strain_energy.
  rewrite (bind_returns _ _ _ _ _ (get_p_incompressible _ _ _ Hl)).
  now rewrite (bind_returns _ _ _ _ _ (get_obj_some _ _ _ Hl)).
Qed.

Lemma Incompressible_strain_energy_set l J w (p : E) :
  heap w !! l = Some (Incompressible (Some p)) ->
  Incompressible_strain_energy l J w =
    (Returns (mul p (sub J (lit (PyFloat 1)))), w).
Proof.
  intros Hl. unfold Incompressible_strain_energy.
  now rewrite (bind_returns _ _ _ _ _ (get_p_incompressible _ _ _ Hl)).
Qed.

Lemma Compressible_strain_energy_run l J w (kappa : E) :
  heap w !! l = Some (Compressible kappa) ->
  Compressible_strain_energy l J w =
    (Returns (mul kappa (add (sub (mul J (ln J)) J) (lit (PyInt 1)))), w).
Proof.
  intros Hl. unfold Compressible_strain_energy.
  now rewrite (bind_returns _ _ _ _ _ (get_kappa_compressible _ _ _ Hl)).
Qed.

Lemma strain_energy_incompressible l q J w :
  heap w !! l = Some (Incompressible q) ->
  strain_energy l J w = Incompressible_strain_energy l J w.
Proof.
  intros Hl. unfold strain_energy.
  now rewrite (bind_returns _ _ _ _ _ (get_obj_some _ _ _ Hl)).
Qed.

Lemma strain_energy_compressible l kappa J w :
  heap w !! l = Some (Compressible kappa) ->
  strain_energy l J w = Compressible_strain_energy l J w.
Proof.
  intros Hl. unfold strain_energy.
  now rewrite (bind_returns _ _ _ _ _ (get_obj_some _ _ _ Hl)).
Qed.

Lemma strain_energy_invalid l J w :
  heap w !! l = None -> strain_energy l J w = (Raises InvalidReference, w).
Proof.
  intros Hl. unfold strain_energy.
  now rewrite (bind_raises _ _ _ _ _ (get_obj_none _ _ Hl)).
Qed.

(** No volumetric energy changes the world. *)
Lemma strain_energy_pure l J w : snd (strain_energy l J w) = w.
Proof.
  destruct (heap w !! l) as [[[p|]|kappa]|] eqn:Hl.
  - rewrite (strain_energy_incompressible _ _ _ _ Hl).
    now rewrite (Incompressible_strain_energy_set _ _ _ _ Hl).
  - rewrite (strain_energy_incompressible _ _ _ _ Hl).
    now rewrite (Incompressible_strain_energy_unset _ _ _ Hl).
  - rewrite (strain_energy_compressible _ _ _ _ Hl).
    now rewrite (Compressible_strain_energy_run _ _ _ _ Hl).
  - now rewrite (strain_energy_invalid _ _ _ Hl).
Qed.

End Runs.

(** ** Running [CardiacModel.strain_energy] *)

Section CardiacRuns.

Context {E : Type} `{ExprOps E}.

Implicit Types (w : world E) (m : CardiacModel E) (F J : E) (p q : option E).

(** The world with one more recorded call and another heap. *)
Lemma record_run (ev : event E) w :
  record ev w = (Returns tt, {| heap := heap w; trace := trace w ++ [ev] |}).
Proof. reflexivity. Qed.

Lemma strain_energy_trace_irrelevant (l : loc) J (h : gmap loc (CompressibilityObj E)) t t' :
  strain_energy l J {| heap := h; trace := t |} =
    (fst (strain_energy l J {| heap := h; trace := t' |}), {| heap := h; trace := t |}).
Proof.
  destruct (h !! l) as [[[p|]|kappa]|] eqn:Hl.
  - rewrite !(strain_energy_incompressible l (Some p) J) by exact Hl.
    now rewrite !Incompressible_strain_energy_set with (p := p) by exact Hl.
  - rewrite !(strain_energy_incompressible l None J) by exact Hl.
    now rewrite !Incompressible_strain_energy_unset by exact Hl.
  - rewrite !(strain_energy_compressible l kappa J) by exact Hl.
    now rewrite !Compressible_strain_energy_run with (kappa := kappa) by exact Hl.
  - now rewrite !strain_energy_invalid by exact Hl.
Qed.

Lemma CardiacModel_strain_energy_run m F p w o :
  heap w !! compressibility m = Some o ->
  let c := compressibility m in
  let Fe := active_Fe (active m) F in
  let J := Jacobian Fe in
  let w1 := snd (register c p w) in
  CardiacModel_strain_energy m F p w =
    (outcome_map
       (fun psi_v =>
          add (add (material_strain_energy (material m) (mul (Jm13_for o J) Fe))
                   (active_strain_energy (active m) (mul (Jm13_for o J) F)))
              psi_v)
       (fst (strain_energy c J w1)),
     {| heap := heap w1; trace := trace w ++ calls_of m o F p |}).
Proof.
  intros Ho c Fe J w1.
  unfold CardiacModel_strain_energy, call_register, call_Fe, call_Jacobian,
    call_is_compressible, call_material_energy, call_active_energy,
    call_volumetric_energy.
  fold c.
  unfold mbind, M_bind, bind, mret, M_ret, ret. rewrite !record_run. simpl.
  destruct o as [q|kappa].
  - (* Incompressible: [register] stores [p] *)
    subst w1. rewrite (register_incompressible c q p w Ho).
    rewrite (register_incompressible c q p) by exact Ho. simpl.
    rewrite (is_compressible_some c (Incompressible p))
      by (simpl; apply lookup_insert_eq). simpl.
    rewrite (strain_energy_trace_irrelevant c _ _ _ (trace w)).
    simpl. rewrite <- !app_assoc. simpl.
    now destruct (strain_energy c _ _) as [[v|e] w'].
  - (* Compressible: [register] does nothing *)
    subst w1. rewrite (register_compressible c kappa p w Ho).
    rewrite (register_compressible c kappa p) by exact Ho. simpl.
    rewrite (is_compressible_some c (Compressible kappa)) by exact Ho. simpl.
    rewrite (strain_energy_trace_irrelevant c _ _ _ (trace w)), (world_eta w).
    simpl. rewrite <- !app_assoc. simpl.
    now destruct (strain_energy c _ _) as [[v|e] w'].
Qed.

End CardiacRuns.

(** ** The composition *)

Section Composition.

Context {E : Type} `{ExprOps E}.

Implicit Types (w : world E) (m : CardiacModel E) (F J : E) (p q : option E).

Lemma new_calls m F p w o :
  heap w !! compressibility m = Some o ->
  trace (snd (CardiacModel_strain_energy m F p w)) = trace w ++ calls_of m o F p.
Proof. intros Ho. now rewrite (CardiacModel_strain_energy_run m F p w o Ho). Qed.

Lemma heap_after_run m F p w o :
  heap w !! compressibility m = Some o ->
  heap (snd (CardiacModel_strain_energy m F p w)) =
    heap (snd (register (compressibility m) p w)).
Proof. intros Ho. now rewrite (CardiacModel_strain_energy_run m F p w o Ho). Qed.

(** C1. For every model, deformation gradient [F] and optional multiplier
    [p], [CardiacModel.strain_energy(F, p)] returns
    [material.strain_energy(Jm13 * Fe) + active.strain_energy(Jm13 * F)
     + compressibility.strain_energy(J)], where [Fe = active.Fe(F)], [J] is
    the Jacobian of [Fe], and [Jm13] is [J ** (-1/3)] when
    [compressibility.is_compressible()] answers true and [1.0] when it
    answers false.  The volumetric term is evaluated after [register(p)];
    when it raises, the call raises the same exception. *)
Theorem strain_energy_composition m F p w o :
  heap w !! compressibility m = Some o ->
  let c := compressibility m in
  let Fe := active_Fe (active m) F in
  let J := Jacobian Fe in
  let w1 := snd (register c p w) in
  exists b : bool,
    fst (is_compressible c w1) = Returns b /\
    let Jm13 := if b then pow J (lit (PyFloat (-1 # 3))) else lit (PyFloat 1) in
    fst (CardiacModel_strain_energy m F p w) =
      outcome_map
        (fun psi_v =>
           add (add (material_strain_energy (material m) (mul Jm13 Fe))
                    (active_strain_energy (active m) (mul Jm13 F)))
               psi_v)
        (fst (strain_energy c J w1)).
Proof.
  intros Ho c Fe J w1. exists (class_is_compressible o). split.
  - subst w1. destruct o as [q|kappa].
    + rewrite (register_incompressible c q p w Ho). simpl.
      now rewrite (is_compressible_some c (Incompressible p))
        by (simpl; apply lookup_insert_eq).
    + rewrite (register_compressible c kappa p w Ho). simpl.
      now rewrite (is_compressible_some c (Compressible kappa)) by exact Ho.
  - now rewrite (CardiacModel_strain_energy_run m F p w o Ho).
Qed.

(** C2. In every evaluation the active capability's [strain_energy] is
    called exactly once, on [Jm13 * F] (the scaled total deformation
    gradient, not the elastic part), and the material capability's
    [strain_energy] exactly once, on [Jm13 * Fe]. *)
Theorem active_energy_on_total_gradient m F p w o :
  heap w !! compressibility m = Some o ->
  let Fe := active_Fe (active m) F in
  let J := Jacobian Fe in
  let Jm13 := if class_is_compressible o
              then pow J (lit (PyFloat (-1 # 3))) else lit (PyFloat 1) in
  exists t : list (event E),
    trace (snd (CardiacModel_strain_energy m F p w)) = trace w ++ t /\
    active_energy_args t = [mul Jm13 F] /\
    material_energy_args t = [mul Jm13 Fe].
Proof.
  intros Ho Fe J Jm13. exists (calls_of m o F p).
  split; [now apply new_calls|]. now split.
Qed.

(** C4. When the compressibility object is [Incompressible], the material
    capability is called on [1.0 * Fe], which is [Fe] itself in every
    expression algebra where the number one is a left unit of the
    product; when it is [Compressible], the material capability is called
    on [J ** (-1/3) * Fe]. *)
Theorem material_argument_split_policy m F p w o :
  heap w !! compressibility m = Some o ->
  (forall T : E, mul (lit (PyFloat 1)) T = T) ->
  let Fe := active_Fe (active m) F in
  let J := Jacobian Fe in
  exists t : list (event E),
    trace (snd (CardiacModel_strain_energy m F p w)) = trace w ++ t /\
    material_energy_args t =
      [ match o with
        | Incompressible _ => Fe
        | Compressible _ => mul (pow J (lit (PyFloat (-1 # 3)))) Fe
        end ].
Proof.
  intros Ho Hunit Fe J. exists (calls_of m o F p).
  split; [now apply new_calls|].
  destruct o as [q|kappa]; simpl; unfold Jm13_for; simpl.
  - now rewrite Hunit.
  - reflexivity.
Qed.

(** C5. Every evaluation calls [compressibility.register] exactly once,
    with the argument [p] as passed ([None] included), and before every
    other call; the heap it leaves is the heap [register(p)] alone leaves:
    no other object changes, and the object the model refers to keeps its
    class. *)
Theorem register_called_exactly_once m F p w o :
  heap w !! compressibility m = Some o ->
  let c := compressibility m in
  let w' := snd (CardiacModel_strain_energy m F p w) in
  (exists t : list (event E),
     trace w' = trace w ++ CallRegister c p :: t /\ register_args t = []) /\
  heap w' = heap (snd (register c p w)) /\
  (forall l : loc, l <> c -> heap w' !! l = heap w !! l) /\
  (exists o', heap w' !! c = Some o' /\ type_name o' = type_name o).
Proof.
  intros Ho c w'. subst w'.
  rewrite (heap_after_run m F p w o Ho), (new_calls m F p w o Ho). fold c.
  split; [|split; [reflexivity|]].
  - eexists. split; [reflexivity|reflexivity].
  - destruct o as [q|kappa].
    + rewrite (register_incompressible c q p w Ho). simpl. split.
      * intros l Hl. now rewrite lookup_insert_ne.
      * exists (Incompressible p). split; [apply lookup_insert_eq|reflexivity].
    + rewrite (register_compressible c kappa p w Ho). split; [reflexivity|].
      now exists (Compressible kappa).
Qed.

(** C9. With an [Incompressible] compressibility object, an evaluation
    without multiplier raises [MissingModelAttribute], also when a
    multiplier was registered on the object before the call: [register(None)]
    overwrites it first. *)
Theorem omitted_multiplier_raises m F w q :
  heap w !! compressibility m = Some (Incompressible q) ->
  let c := compressibility m in
  let missing := Raises (MissingModelAttribute "p" "Incompressible") in
  fst (CardiacModel_strain_energy m F None w) = missing /\
  heap (snd (CardiacModel_strain_energy m F None w)) !! c = Some (Incompressible None) /\
  forall p0 : E,
    let w0 := snd (register c (Some p0) w) in
    heap w0 !! c = Some (Incompressible (Some p0)) /\
    fst (CardiacModel_strain_energy m F None w0) = missing.
Proof.
  intros Ho c missing.
  assert (Hrun : forall w1 q1, heap w1 !! c = Some (Incompressible q1) ->
            fst (CardiacModel_strain_energy m F None w1) = missing /\
            heap (snd (CardiacModel_strain_energy m F None w1)) !! c
              = Some (Incompressible None)).
  { intros w1 q1 H1.
    rewrite (CardiacModel_strain_energy_run m F None w1 _ H1). fold c.
    rewrite (register_incompressible c q1 None w1 H1). simpl.
    assert (Hc : heap {| heap := <[c:=Incompressible None]> (heap w1);
                         trace := trace w1 |} !! c
                 = Some (@Incompressible E None))
      by (simpl; apply lookup_insert_eq).
    rewrite (strain_energy_incompressible c None _ _ Hc).
    rewrite (Incompressible_strain_energy_unset c _ _ Hc). simpl.
    split; [reflexivity|apply lookup_insert_eq]. }
  destruct (Hrun w q Ho) as [Hraise Hheap].
  split; [exact Hraise|split; [exact Hheap|]].
  intros p0 w0. subst w0.
  rewrite (register_incompressible c q (Some p0) w Ho). simpl.
  split; [apply lookup_insert_eq|].
  eapply Hrun. simpl. apply lookup_insert_eq.
Qed.

(** C10. With a [Compressible] compressibility object, the evaluation
    returns, its result does not depend on the multiplier passed, and the
    heap is left as it was. *)
Theorem compressible_ignores_multiplier m F w kappa p1 p2 :
  heap w !! compressibility m = Some (Compressible kappa) ->
  fst (CardiacModel_strain_energy m F p1 w) = fst (CardiacModel_strain_energy m F p2 w) /\
  (exists v : E, fst (CardiacModel_strain_energy m F p1 w) = Returns v) /\
  heap (snd (CardiacModel_strain_energy m F p1 w)) = heap w /\
  heap (snd (CardiacModel_strain_energy m F p2 w)) = heap w.
Proof.
  intros Ho.
  rewrite !(CardiacModel_strain_energy_run m F _ w _ Ho).
  rewrite !(register_compressible _ kappa _ w Ho). simpl.
  rewrite (strain_energy_compressible _ kappa _ _ Ho).
  rewrite (Compressible_strain_energy_run _ _ _ kappa Ho). simpl.
  split; [reflexivity|]. split; [eexists; reflexivity|]. now split.
Qed.

End Composition.

(** ** The compressibility models *)

Section CompressibilityModels.

Context {E : Type} `{ExprOps E}.

Implicit Types (w : world E) (l : loc) (J : E) (p q : option E).

(** C3. [Incompressible.strain_energy(J)] raises
    [MissingModelAttribute(attr="p", model="Incompressible")] if and only
    if the stored [p] is unset; with a multiplier [p] stored it returns
    [p * (J - 1.0)].  Either way the object is left as it was.  So the call
    raises after [register(None)] and returns after [register(p)]. *)
Theorem Incompressible_strain_energy_raises_iff_unset l J w q :
  heap w !! l = Some (Incompressible q) ->
  ((exists e, fst (Incompressible_strain_energy l J w) = Raises e) <-> q = None) /\
  (q = None ->
   fst (Incompressible_strain_energy l J w)
     = Raises (MissingModelAttribute "p" "Incompressible")) /\
  (forall p0 : E, q = Some p0 ->
   fst (Incompressible_strain_energy l J w)
     = Returns (mul p0 (sub J (lit (PyFloat 1))))) /\
  snd (Incompressible_strain_energy l J w) = w /\
  fst (Incompressible_strain_energy l J (snd (register l None w)))
    = Raises (MissingModelAttribute "p" "Incompressible") /\
  (forall p0 : E,
   fst (Incompressible_strain_energy l J (snd (register l (Some p0) w)))
     = Returns (mul p0 (sub J (lit (PyFloat 1))))).
Proof.
  intros Hl.
  assert (Hunset : forall w0, heap w0 !! l = Some (@Incompressible E None) ->
            Incompressible_strain_energy l J w0
              = (Raises (MissingModelAttribute "p" "Incompressible"), w0))
    by (intros; now apply Incompressible_strain_energy_unset).
  assert (Hset : forall w0 (p0 : E), heap w0 !! l = Some (Incompressible (Some p0)) ->
            Incompressible_strain_energy l J w0
              = (Returns (mul p0 (sub J (lit (PyFloat 1)))), w0))
    by (intros; now apply Incompressible_strain_energy_set).
  repeat split.
  - intros [e He]. destruct q as [p0|]; [|reflexivity].
    rewrite (Hset w p0 Hl) in He. discriminate He.
  - intros ->. rewrite (Hunset w Hl). now eexists.
  - intros ->. now rewrite (Hunset w Hl).
  - intros p0 ->. now rewrite (Hset w p0 Hl).
  - destruct q as [p0|]; [now rewrite (Hset w p0 Hl)|now rewrite (Hunset w Hl)].
  - rewrite (register_incompressible l q None w Hl). simpl.
    rewrite Hunset; [reflexivity|]. simpl. apply lookup_insert_eq.
  - intros p0. rewrite (register_incompressible l q (Some p0) w Hl). simpl.
    rewrite (Hset _ p0); [reflexivity|]. simpl. apply lookup_insert_eq.
Qed.

(** *** Repeated registration *)

Lemma register_seq_incompressible l (ps : list (option E)) : forall w q,
  heap w !! l = Some (Incompressible q) ->
  exists w',
    register_seq l ps w = (Returns tt, w') /\
    heap w' !! l = Some (Incompressible (default q (last ps))) /\
    (forall l', l' <> l -> heap w' !! l' = heap w !! l') /\
    trace w' = trace w.
Proof.
  induction ps as [|p ps IH]; intros w q Hl.
  - exists w. now repeat split.
  - simpl register_seq.
    set (w1 := {| heap := <[l := Incompressible p]> (heap w); trace := trace w |}).
    assert (H1 : heap w1 !! l = Some (Incompressible p))
      by (simpl; apply lookup_insert_eq).
    destruct (IH w1 p H1) as (w' & Hrun & Hl' & Hframe & Htrace).
    exists w'. split; [|split; [|split]].
    + rewrite (bind_returns _ _ _ _ _ (register_incompressible l q p w Hl)).
      exact Hrun.
    + rewrite Hl'. f_equal. f_equal. rewrite last_cons.
      now destruct (last ps).
    + intros l' Hne. rewrite (Hframe l' Hne). simpl.
      now rewrite lookup_insert_ne.
    + now rewrite Htrace.
Qed.

Lemma register_seq_compressible l (ps : list (option E)) w kappa :
  heap w !! l = Some (Compressible kappa) ->
  register_seq l ps w = (Returns tt, w).
Proof.
  intros Hl. induction ps as [|p ps IH]; [reflexivity|].
  simpl register_seq.
  now rewrite (bind_returns _ _ _ _ _ (register_compressible l kappa p w Hl)).
Qed.

(** C7. [register] can be called any number of times on either model and
    never raises; calling it twice with one argument leaves the state of
    one call; on [Incompressible] the stored multiplier after a sequence of
    calls is the argument of the last one ([None] included) and no other
    object changes; on [Compressible] nothing changes, whatever the
    arguments. *)
Theorem register_last_call_wins l (ps : list (option E)) w o :
  heap w !! l = Some o ->
  fst (register_seq l ps w) = Returns tt /\
  (forall p, snd (register_seq l [p; p] w) = snd (register l p w)) /\
  match o with
  | Incompressible q =>
      heap (snd (register_seq l ps w)) !! l
        = Some (Incompressible (default q (last ps))) /\
      (forall l', l' <> l ->
         heap (snd (register_seq l ps w)) !! l' = heap w !! l')
  | Compressible _ => snd (register_seq l ps w) = w
  end.
Proof.
  intros Hl. destruct o as [q|kappa].
  - destruct (register_seq_incompressible l ps w q Hl)
      as (w' & Hrun & Hl' & Hframe & _).
    rewrite Hrun. simpl. split; [reflexivity|]. split; [|now split].
    intros p. simpl register_seq.
    pose proof (register_incompressible l q p w Hl) as H1.
    rewrite (bind_returns _ _ _ _ _ H1).
    rewrite (bind_returns _ _ _ tt
               {| heap := <[l:=Incompressible p]> (heap w); trace := trace w |}).
    + rewrite H1. reflexivity.
    + rewrite (register_incompressible l p p); [|simpl; apply lookup_insert_eq].
      simpl. now rewrite insert_insert_eq.
  - rewrite (register_seq_compressible l ps w kappa Hl).
    split; [reflexivity|]. split; [|reflexivity].
    intros p. rewrite (register_seq_compressible l [p; p] w kappa Hl).
    now rewrite (register_compressible l kappa p w Hl).
Qed.

(** *** The class of an object never changes *)

Lemma register_class l' p w l :
  class_at (snd (register l' p w)) l = class_at w l.
Proof.
  unfold class_at.
  destruct (heap w !! l') as [[q|kappa]|] eqn:Hl'.
  - rewrite (register_incompressible l' q p w Hl'). simpl.
    destruct (decide (l' = l)) as [->|Hne].
    + now rewrite lookup_insert_eq, Hl'.
    + now rewrite lookup_insert_ne.
  - now rewrite (register_compressible l' kappa p w Hl').
  - now rewrite (register_invalid l' p w Hl').
Qed.

Lemma is_compressible_pure l w : snd (is_compressible l w) = w.
Proof.
  destruct (heap w !! l) as [o|] eqn:Hl.
  - now rewrite (is_compressible_some l o w Hl).
  - now rewrite (is_compressible_invalid l w Hl).
Qed.

Lemma CardiacModel_strain_energy_invalid (m : CardiacModel E) (F : E) p w :
  heap w !! compressibility m = None ->
  heap (snd (CardiacModel_strain_energy m F p w)) = heap w.
Proof.
  intros Hc. unfold CardiacModel_strain_energy, call_register.
  unfold mbind, M_bind, bind. rewrite record_run.
  now rewrite register_invalid by exact Hc.
Qed.

Lemma perform_class (a : action E) w l :
  class_at (perform a w) l = class_at w l.
Proof.
  destruct a as [l' p|l' J|l'|m F p]; simpl.
  - apply register_class.
  - now rewrite strain_energy_pure.
  - now rewrite is_compressible_pure.
  - unfold class_at at 1.
    destruct (heap w !! compressibility m) as [o|] eqn:Hc.
    + rewrite (heap_after_run m F p w o Hc). apply register_class.
    + now rewrite (CardiacModel_strain_energy_invalid m F p w Hc).
Qed.

Lemma perform_all_class (acts : list (action E)) : forall w l,
  class_at (perform_all acts w) l = class_at w l.
Proof.
  induction acts as [|a acts IH]; intros w l; [reflexivity|].
  unfold perform_all in *. simpl. rewrite IH. apply perform_class.
Qed.

(** C8. [is_compressible()] returns [False] on every [Incompressible]
    object and [True] on every [Compressible] one, leaves the world as it
    is, and gives the same answer after any sequence of calls made on the
    objects of the store. *)
Theorem is_compressible_constant l w o (acts : list (action E)) :
  heap w !! l = Some o ->
  let answer := match o with Incompressible _ => false | Compressible _ => true end in
  is_compressible l w = (Returns answer, w) /\
  is_compressible l (perform_all acts w) = (Returns answer, perform_all acts w).
Proof.
  intros Hl answer.
  assert (Ha : class_is_compressible o = answer) by now destruct o.
  split.
  - now rewrite (is_compressible_some l o w Hl), Ha.
  - pose proof (perform_all_class acts w l) as Hclass.
    unfold class_at in Hclass. rewrite Hl in Hclass. simpl in Hclass.
    destruct (heap (perform_all acts w) !! l) as [o'|] eqn:Hl'; [|discriminate].
    rewrite (is_compressible_some l o' _ Hl').
    simpl in Hclass. injection Hclass as ->. now rewrite Ha.
Qed.

End CompressibilityModels.

(** ** The volumetric penalty is convex with its minimum at one *)

Section Penalty.

Local Open Scope R_scope.

Lemma ln_below_tangent y : 0 < y -> y <> 1 -> Rpower.ln y < y - 1.
Proof.
  intros Hy Hne.
  assert (Hexp : y < exp (y - 1)).
  { replace y with (1 + (y - 1)) at 1 by ring. apply exp_ineq1. lra. }
  rewrite <- (ln_exp (y - 1)). now apply ln_increasing.
Qed.

Lemma penalty_positive J : 0 < J -> J <> 1 -> 0 < penalty J.
Proof.
  intros HJ Hne. unfold penalty.
  assert (Hinv : 0 < / J) by now apply Rinv_0_lt_compat.
  assert (Hne' : / J <> 1).
  { intros Heq. apply Hne. rewrite <- (Rinv_inv J), Heq. apply Rinv_1. }
  pose proof (ln_below_tangent (/ J) Hinv Hne') as Hln.
  rewrite ln_Rinv in Hln by exact HJ.
  assert (Hmul : J * (- Rpower.ln J) < J * (/ J - 1)) by now apply Rmult_lt_compat_l.
  rewrite Rmult_minus_distr_l, Rinv_r in Hmul by lra. lra.
Qed.

Lemma penalty_derivative x : 0 < x -> derivable_pt_lim penalty x (Rpower.ln x).
Proof.
  intros Hx.
  replace (Rpower.ln x) with (1 * Rpower.ln x + Ranalysis1.id x * / x - 1 + 0)
    by (unfold Ranalysis1.id; field; lra).
  change penalty with
    (plus_fct (minus_fct (mult_fct Ranalysis1.id ln) Ranalysis1.id) (fct_cte 1)).
  apply derivable_pt_lim_plus; [|apply derivable_pt_lim_const].
  apply derivable_pt_lim_minus; [|apply derivable_pt_lim_id].
  apply derivable_pt_lim_mult; [apply derivable_pt_lim_id|].
  now apply derivable_pt_lim_ln.
Qed.

Lemma penalty_gap_derivative h :
  -1 < h < 1 -> derivable_pt_lim penalty_gap h (- (Rpower.ln (1 - h) + Rpower.ln (1 + h))).
Proof.
  intros [Hlo Hhi].
  replace (- (Rpower.ln (1 - h) + Rpower.ln (1 + h)))
    with (Rpower.ln (1 - h) * (0 - 1) - Rpower.ln (1 + h) * (0 + 1)) by ring.
  change penalty_gap with
    (minus_fct (comp penalty (minus_fct (fct_cte 1) Ranalysis1.id))
               (comp penalty (plus_fct (fct_cte 1) Ranalysis1.id))).
  apply derivable_pt_lim_minus.
  - apply derivable_pt_lim_comp.
    + apply derivable_pt_lim_minus;
        [apply derivable_pt_lim_const|apply derivable_pt_lim_id].
    + apply penalty_derivative. unfold minus_fct, fct_cte, Ranalysis1.id. lra.
  - apply derivable_pt_lim_comp.
    + apply derivable_pt_lim_plus;
        [apply derivable_pt_lim_const|apply derivable_pt_lim_id].
    + apply penalty_derivative. unfold plus_fct, fct_cte, Ranalysis1.id. lra.
Qed.

Lemma penalty_gap_positive h : 0 < h < 1 -> 0 < penalty_gap h.
Proof.
  intros [Hlo Hhi].
  destruct (MVT_cor2 penalty_gap (fun c => - (Rpower.ln (1 - c) + Rpower.ln (1 + c))) 0 h Hlo)
    as (c & Hmvt & Hc).
  { intros c Hc. apply penalty_gap_derivative. lra. }
  assert (H0 : penalty_gap 0 = 0).
  { unfold penalty_gap. now rewrite Rminus_0_r, Rplus_0_r, Rminus_diag. }
  rewrite H0, !Rminus_0_r in Hmvt. rewrite Hmvt.
  apply Rmult_lt_0_compat; [|exact Hlo].
  rewrite <- ln_mult by lra.
  assert (Hlt : Rpower.ln ((1 - c) * (1 + c)) < Rpower.ln 1) by (apply ln_increasing; nra).
  rewrite ln_1 in Hlt. lra.
Qed.

Lemma float_literal_values :
  pynum_value (PyFloat 1000) = 1000 /\ pynum_value (PyFloat 1) = 1 /\
  pynum_value (PyFloat (101 # 100)) = 1 + 1 / 100 /\
  pynum_value (PyFloat (99 # 100)) = 1 - 1 / 100 /\
  pynum_value (PyInt 1) = 1.
Proof. unfold pynum_value, Q2R; simpl. repeat split; lra. Qed.

(** C6. For every coefficient [kappa] and every [J],
    [Compressible.strain_energy(J)] returns [kappa * (J * ln(J) - J + 1)];
    with [kappa = 1000] and real arguments, its value at [J = 1] is [0],
    its value at [J = 1.01] is positive, and its values at [0.99] and at
    [1.01] differ. *)
Theorem Compressible_strain_energy_formula :
  (forall (E : Type) (ops : ExprOps E) (l : loc) (kappa J : E) (w : world E),
     heap w !! l = Some (Compressible kappa) ->
     Compressible_strain_energy l J w =
       (Returns (mul kappa (add (sub (mul J (ln J)) J) (lit (PyInt 1)))), w)) /\
  (forall (l : loc) (w : world R),
     heap w !! l = Some (Compressible default_kappa) ->
     fst (Compressible_strain_energy l (lit (PyFloat 1)) w) = Returns 0 /\
     (exists v : R,
        fst (Compressible_strain_energy l (lit (PyFloat (101 # 100))) w) = Returns v /\
        0 < v) /\
     fst (Compressible_strain_energy l (lit (PyFloat (99 # 100))) w)
       <> fst (Compressible_strain_energy l (lit (PyFloat (101 # 100))) w)).
Proof.
  split.
  - intros E ops l kappa J w Hl. now apply Compressible_strain_energy_run.
  - intros l w Hl.
    rewrite !(Compressible_strain_energy_run l _ w _ Hl).
    unfold default_kappa. cbn [fst real_ops mul add sub ln lit].
    destruct float_literal_values as (-> & -> & -> & -> & ->).
    fold (penalty 1) (penalty (1 + 1 / 100)) (penalty (1 - 1 / 100)).
    assert (H1 : penalty 1 = 0) by (unfold penalty; rewrite ln_1; ring).
    assert (Hup : 0 < penalty (1 + 1 / 100)) by (apply penalty_positive; lra).
    assert (Hgap : 0 < penalty_gap (1 / 100)) by (apply penalty_gap_positive; lra).
    unfold penalty_gap in Hgap.
    split; [|split].
    + f_equal. rewrite H1. ring.
    + eexists. split; [reflexivity|]. lra.
    + intros Heq. injection Heq as Heq. lra.
Qed.

End Penalty.

(** ** The theorems at the sample data *)

Section SampleRuns.

Import Sample.

Lemma fresh_incompressible_at_0 :
  heap fresh_incompressible !! compressibility model = Some (Incompressible None).
Proof. reflexivity. Defined.

Lemma registered_incompressible_at_0 :
  heap registered_incompressible !! compressibility model
    = Some (Incompressible (Some p)).
Proof. reflexivity. Defined.

Lemma compressible_at_0 :
  heap compressible !! compressibility model
    = Some (Compressible (Lit (PyFloat 1000))).
Proof. reflexivity. Defined.

Lemma strain_energy_composition_witness :
  heap compressible !! compressibility model = Some (Compressible (Lit (PyFloat 1000))) /\
  fst (CardiacModel_strain_energy model F None compressible) =
    Returns
      (Add (Add (Mul (Sym "mu") (Mul (Pow (Det Fe_sample) minus_third) Fe_sample))
                (Mul (Sym "Ta") (Mul (Pow (Det Fe_sample) minus_third) F)))
           (Mul (Lit (PyFloat 1000))
                (Add (Sub (Mul (Det Fe_sample) (Ln (Det Fe_sample))) (Det Fe_sample))
                     (Lit (PyInt 1))))).
Proof.
  split; [exact compressible_at_0|].
  destruct (strain_energy_composition model F None compressible _ compressible_at_0)
    as (b & Hb & Hrun).
  vm_compute in Hb. injection Hb as <-.
  rewrite Hrun. reflexivity.
Defined.

Lemma active_energy_on_total_gradient_witness :
  active_energy_args
    (trace (snd (CardiacModel_strain_energy model F (Some p) fresh_incompressible)))
    = [Mul one F] /\
  material_energy_args
    (trace (snd (CardiacModel_strain_energy model F (Some p) fresh_incompressible)))
    = [Mul one Fe_sample].
Proof.
  destruct (active_energy_on_total_gradient model F (Some p) fresh_incompressible _
              fresh_incompressible_at_0) as (t & Ht & Ha & Hm).
  rewrite Ht. simpl. rewrite Ha, Hm. split; reflexivity.
Defined.

Lemma Incompressible_strain_energy_raises_iff_unset_witness :
  fst (Incompressible_strain_energy 0%nat (Sym "J") fresh_incompressible)
    = Raises (MissingModelAttribute "p" "Incompressible") /\
  fst (Incompressible_strain_energy 0%nat (Sym "J") registered_incompressible)
    = Returns (Mul p (Sub (Sym "J") one)).
Proof.
  split.
  - destruct (Incompressible_strain_energy_raises_iff_unset 0%nat (Sym "J")
                fresh_incompressible None fresh_incompressible_at_0)
      as (_ & Hraise & _).
    exact (Hraise eq_refl).
  - destruct (Incompressible_strain_energy_raises_iff_unset 0%nat (Sym "J")
                registered_incompressible (Some p) registered_incompressible_at_0)
      as (_ & _ & Hreturn & _).
    exact (Hreturn p eq_refl).
Defined.

Lemma material_argument_split_policy_witness :
  material_energy_args
    (trace (snd (@CardiacModel_strain_energy term simplifying_term_ops
                   model F None fresh_incompressible)))
    = [Fe_sample] /\
  material_energy_args
    (trace (snd (@CardiacModel_strain_energy term simplifying_term_ops
                   model F None compressible)))
    = [Mul (Pow (Det Fe_sample) minus_third) Fe_sample].
Proof.
  assert (Hunit : forall T : term,
            @mul term simplifying_term_ops (@lit term simplifying_term_ops (PyFloat 1)) T = T)
    by (intros T; reflexivity).
  split.
  - destruct (@material_argument_split_policy term simplifying_term_ops
                model F None fresh_incompressible _ fresh_incompressible_at_0 Hunit)
      as (t & Ht & Hm).
    rewrite Ht. simpl. rewrite Hm. reflexivity.
  - destruct (@material_argument_split_policy term simplifying_term_ops
                model F None compressible _ compressible_at_0 Hunit)
      as (t & Ht & Hm).
    rewrite Ht. simpl. rewrite Hm. reflexivity.
Defined.

Lemma register_called_exactly_once_witness :
  register_args
    (trace (snd (CardiacModel_strain_energy model F None registered_incompressible)))
    = [(0%nat, None)] /\
  heap (snd (CardiacModel_strain_energy model F None registered_incompressible)) !! 0%nat
    = Some (Incompressible None).
Proof.
  destruct (register_called_exactly_once model F None registered_incompressible _
              registered_incompressible_at_0)
    as ((t & Ht & Hr) & Hheap & _ & _).
  rewrite Ht, Hheap. simpl. rewrite Hr. split; reflexivity.
Defined.

Lemma Compressible_strain_energy_formula_witness :
  fst (Compressible_strain_energy 0%nat (Sym "J") compressible)
    = Returns (Mul (Lit (PyFloat 1000))
                 (Add (Sub (Mul (Sym "J") (Ln (Sym "J"))) (Sym "J")) (Lit (PyInt 1)))) /\
  fst (Compressible_strain_energy 0%nat (pynum_value (PyFloat 1)) real_compressible)
    = Returns 0%R.
Proof.
  destruct Compressible_strain_energy_formula as [Hsym Hnum].
  split.
  - rewrite (Hsym term term_ops 0%nat _ (Sym "J") compressible compressible_at_0).
    reflexivity.
  - apply (Hnum 0%nat real_compressible). reflexivity.
Defined.

Lemma register_last_call_wins_witness :
  heap (snd (register_seq 0%nat [Some p; None; Some (Sym "p2")] fresh_incompressible))
    !! 0%nat
    = Some (Incompressible (Some (Sym "p2"))) /\
  snd (register_seq 0%nat [Some p; None; Some (Sym "p2")] compressible) = compressible.
Proof.
  split.
  - apply (register_last_call_wins 0%nat [Some p; None; Some (Sym "p2")]
             fresh_incompressible _ fresh_incompressible_at_0).
  - apply (register_last_call_wins 0%nat [Some p; None; Some (Sym "p2")]
             compressible _ compressible_at_0).
Defined.

Lemma is_compressible_constant_witness :
  fst (is_compressible 0%nat
         (perform_all
            [DoRegister 0%nat (Some p); DoCardiacStrainEnergy model F None;
             DoStrainEnergy 0%nat (Sym "J"); DoIsCompressible 0%nat]
            fresh_incompressible))
    = Returns false /\
  fst (is_compressible 0%nat compressible) = Returns true.
Proof.
  split.
  - destruct (is_compressible_constant 0%nat fresh_incompressible _
               [DoRegister 0%nat (Some p); DoCardiacStrainEnergy model F None;
                DoStrainEnergy 0%nat (Sym "J"); DoIsCompressible 0%nat]
               fresh_incompressible_at_0) as [_ Hafter].
    rewrite Hafter. reflexivity.
  - destruct (is_compressible_constant 0%nat compressible _ [] compressible_at_0)
      as [Hnow _].
    rewrite Hnow. reflexivity.
Defined.

Lemma omitted_multiplier_raises_witness :
  fst (CardiacModel_strain_energy model F None registered_incompressible)
    = Raises (MissingModelAttribute "p" "Incompressible").
Proof.
  apply (omitted_multiplier_raises model F registered_incompressible (Some p)
           registered_incompressible_at_0).
Defined.

Lemma compressible_ignores_multiplier_witness :
  fst (CardiacModel_strain_energy model F None compressible)
    = fst (CardiacModel_strain_energy model F (Some p) compressible) /\
  heap (snd (CardiacModel_strain_energy model F (Some p) compressible))
    = heap compressible.
Proof.
  destruct (compressible_ignores_multiplier model F compressible _ None (Some p)
              compressible_at_0) as (Hsame & _ & _ & Hheap).
  split; [exact Hsame|exact Hheap].
Defined.

End SampleRuns.

(** * Further properties *)

(** ** Outcomes of an evaluation, by class *)

Section Outcomes.

Context {E : Type} `{ExprOps E}.

Implicit Types (w : world E) (m : CardiacModel E) (F J : E) (p q : option E).

Lemma evaluation_incompressible m F p w q :
  heap w !! compressibility m = Some (Incompressible q) ->
  let Fe := active_Fe (active m) F in
  let J := Jacobian Fe in
  let one := lit (PyFloat 1) in
  fst (CardiacModel_strain_energy m F p w) =
    match p with
    | None => Raises (MissingModelAttribute "p" "Incompressible")
    | Some p0 =>
        Returns (add (add (material_strain_energy (material m) (mul one Fe))
                          (active_strain_energy (active m) (mul one F)))
                     (mul p0 (sub J one)))
    end.
Proof.
  intros Hc Fe J one.
  rewrite (CardiacModel_strain_energy_run m F p w _ Hc).
  rewrite (register_incompressible _ q p w Hc).
  cbn [fst snd].
  set (w1 := {| heap := _; trace := _ |}).
  assert (H1 : heap w1 !! compressibility m = Some (Incompressible p))
    by (subst w1; cbn [heap]; apply lookup_insert_eq).
  rewrite (strain_energy_incompressible _ p _ w1 H1).
  destruct p as [p0|].
  - now rewrite (Incompressible_strain_energy_set _ _ w1 p0 H1).
  - now rewrite (Incompressible_strain_energy_unset _ _ w1 H1).
Qed.

Lemma evaluation_compressible m F p w (kappa : E) :
  heap w !! compressibility m = Some (Compressible kappa) ->
  let Fe := active_Fe (active m) F in
  let J := Jacobian Fe in
  let Jm13 := pow J (lit (PyFloat (-1 # 3))) in
  fst (CardiacModel_strain_energy m F p w) =
    Returns (add (add (material_strain_energy (material m) (mul Jm13 Fe))
                      (active_strain_energy (active m) (mul Jm13 F)))
                 (mul kappa (add (sub (mul J (ln J)) J) (lit (PyInt 1))))).
Proof.
  intros Hc Fe J Jm13.
  rewrite (CardiacModel_strain_energy_run m F p w _ Hc).
  rewrite (register_compressible _ kappa p w Hc).
  cbn [fst snd].
  rewrite (strain_energy_compressible _ kappa _ w Hc).
  now rewrite (Compressible_strain_energy_run _ _ w kappa Hc).
Qed.

Lemma evaluation_invalid m F p w :
  heap w !! compressibility m = None ->
  fst (CardiacModel_strain_energy m F p w) = Raises InvalidReference.
Proof.
  intros Hc. unfold CardiacModel_strain_energy, call_register.
  unfold mbind, M_bind, bind. rewrite record_run.
  now rewrite register_invalid by exact Hc.
Qed.

(** *** What no call changes *)

Lemma register_configuration (l' : loc) p w (l : loc) :
  configuration_at (snd (register l' p w)) l = configuration_at w l.
Proof.
  unfold configuration_at.
  destruct (heap w !! l') as [[q|kappa]|] eqn:Hl'.
  - rewrite (register_incompressible l' q p w Hl'). cbn [snd heap].
    destruct (decide (l' = l)) as [->|Hne].
    + now rewrite lookup_insert_eq, Hl'.
    + now rewrite lookup_insert_ne.
  - now rewrite (register_compressible l' kappa p w Hl').
  - now rewrite (register_invalid l' p w Hl').
Qed.

Lemma evaluation_configuration m F p w (l : loc) :
  configuration_at (snd (CardiacModel_strain_energy m F p w)) l = configuration_at w l.
Proof.
  unfold configuration_at at 1.
  destruct (heap w !! compressibility m) as [o|] eqn:Hc.
  - rewrite (heap_after_run m F p w o Hc). apply register_configuration.
  - now rewrite (CardiacModel_strain_energy_invalid m F p w Hc).
Qed.

Lemma perform_configuration (a : action E) w (l : loc) :
  configuration_at (perform a w) l = configuration_at w l.
Proof.
  destruct a as [l' p|l' J|l'|m F p]; cbn [perform].
  - apply register_configuration.
  - now rewrite strain_energy_pure.
  - now rewrite is_compressible_pure.
  - apply evaluation_configuration.
Qed.

Lemma perform_all_configuration (acts : list (action E)) : forall w (l : loc),
  configuration_at (perform_all acts w) l = configuration_at w l.
Proof.
  induction acts as [|a acts IH]; intros w l; [reflexivity|].
  unfold perform_all in *. cbn [foldl]. rewrite IH. apply perform_configuration.
Qed.

Lemma outcome_by_configuration m F p w1 w2 :
  configuration_at w1 (compressibility m) = configuration_at w2 (compressibility m) ->
  fst (CardiacModel_strain_energy m F p w1) = fst (CardiacModel_strain_energy m F p w2).
Proof.
  unfold configuration_at. intros Hcfg.
  destruct (heap w1 !! compressibility m) as [o1|] eqn:H1;
    destruct (heap w2 !! compressibility m) as [o2|] eqn:H2;
    cbn in Hcfg; try discriminate Hcfg.
  - destruct o1 as [q1|k1], o2 as [q2|k2]; cbn in Hcfg; try discriminate Hcfg.
    + now rewrite (evaluation_incompressible m F p w1 q1 H1),
                  (evaluation_incompressible m F p w2 q2 H2).
    + injection Hcfg as ->.
      now rewrite (evaluation_compressible m F p w1 k2 H1),
                  (evaluation_compressible m F p w2 k2 H2).
  - now rewrite (evaluation_invalid m F p w1 H1), (evaluation_invalid m F p w2 H2).
Qed.

(** X1. The outcome of [CardiacModel.strain_energy(F, p)] does not depend on
    what was done before: after any sequence of [register],
    [strain_energy], [is_compressible] and [CardiacModel.strain_energy]
    calls, on any objects and with any arguments, it returns the same
    expression or raises the same exception as without them. *)
Theorem evaluation_outcome_ignores_history
    (acts : list (action E)) m F p w :
  fst (CardiacModel_strain_energy m F p (perform_all acts w))
    = fst (CardiacModel_strain_energy m F p w).
Proof.
  apply outcome_by_configuration. apply perform_all_configuration.
Qed.

(** X2. With an [Incompressible] object, [CardiacModel.strain_energy(F, p)]
    raises if and only if [p] is [None]; with a multiplier [p] it returns
    [material(1.0 * Fe) + active(1.0 * F) + p * (J - 1.0)], whatever was
    stored in the object before; afterwards the object stores [p]. *)
Theorem incompressible_evaluation_needs_multiplier m F p w q :
  heap w !! compressibility m = Some (Incompressible q) ->
  let Fe := active_Fe (active m) F in
  let J := Jacobian Fe in
  let one := lit (PyFloat 1) in
  ((exists e, fst (CardiacModel_strain_energy m F p w) = Raises e) <-> p = None) /\
  (forall p0 : E, p = Some p0 ->
     fst (CardiacModel_strain_energy m F p w) =
       Returns (add (add (material_strain_energy (material m) (mul one Fe))
                         (active_strain_energy (active m) (mul one F)))
                    (mul p0 (sub J one)))) /\
  heap (snd (CardiacModel_strain_energy m F p w)) !! compressibility m
    = Some (Incompressible p).
Proof.
  intros Hc Fe J one.
  pose proof (evaluation_incompressible m F p w q Hc) as Hrun. cbn zeta in Hrun.
  split; [|split].
  - rewrite Hrun. destruct p as [p0|]; split.
    + intros [e He]. discriminate He.
    + intros Hp. discriminate Hp.
    + reflexivity.
    + intros _. now eexists.
  - intros p0 ->. exact Hrun.
  - rewrite (heap_after_run m F p w _ Hc).
    rewrite (register_incompressible _ q p w Hc). cbn [snd heap].
    apply lookup_insert_eq.
Qed.

(** X3. Every evaluation makes the same seven capability calls in the
    same order: [register], [Fe], [Jacobian], [is_compressible], the
    material energy, the active energy, the volumetric energy.  The
    material and the active energy have been called also when the
    evaluation raises: only the last call can raise. *)
Theorem evaluation_calls_in_order m F p w o :
  heap w !! compressibility m = Some o ->
  let c := compressibility m in
  let Fe := active_Fe (active m) F in
  let J := Jacobian Fe in
  let Jm13 := match o with
              | Incompressible _ => lit (PyFloat 1)
              | Compressible _ => pow J (lit (PyFloat (-1 # 3)))
              end in
  trace (snd (CardiacModel_strain_energy m F p w)) =
    trace w ++
    [ CallRegister c p; CallFe F; CallJacobian Fe; CallIsCompressible c;
      CallMaterialEnergy (mul Jm13 Fe); CallActiveEnergy (mul Jm13 F);
      CallVolumetricEnergy c J ].
Proof.
  intros Hc c Fe J Jm13. rewrite (new_calls m F p w o Hc).
  unfold calls_of, Jm13_for. now destruct o.
Qed.

(** X4. No call creates or deletes an object, changes the class of an
    object, or assigns [kappa]: after any sequence of calls the store has
    the same locations, a [Compressible] object is as it was constructed,
    and an [Incompressible] object is still [Incompressible]. *)
Theorem objects_keep_class_and_coefficient (acts : list (action E)) w :
  dom (heap (perform_all acts w)) = dom (heap w) /\
  (forall (l : loc) (kappa : E),
     heap w !! l = Some (Compressible kappa) ->
     heap (perform_all acts w) !! l = Some (Compressible kappa)) /\
  (forall (l : loc) q,
     heap w !! l = Some (Incompressible q) ->
     exists q', heap (perform_all acts w) !! l = Some (Incompressible q')).
Proof.
  pose proof (perform_all_configuration acts w) as Hcfg.
  unfold configuration_at in Hcfg.
  split; [|split].
  - apply set_eq. intros l. rewrite !elem_of_dom.
    specialize (Hcfg l).
    destruct (heap (perform_all acts w) !! l), (heap w !! l);
      cbn in Hcfg; try discriminate Hcfg; split; intros [? ?]; try discriminate; eauto.
  - intros l kappa Hl. specialize (Hcfg l). rewrite Hl in Hcfg.
    destruct (heap (perform_all acts w) !! l) as [[q'|k']|];
      cbn in Hcfg; try discriminate Hcfg.
    now injection Hcfg as ->.
  - intros l q Hl. specialize (Hcfg l). rewrite Hl in Hcfg.
    destruct (heap (perform_all acts w) !! l) as [[q'|k']|];
      cbn in Hcfg; try discriminate Hcfg.
    now exists q'.
Qed.

End Outcomes.

(** ** Evaluations composed *)

Section Composed.

Context {E : Type} `{ExprOps E}.

Implicit Types (w : world E) (m : CardiacModel E) (F J : E) (p q : option E).

Lemma heap_after_evaluation m F p w :
  heap (snd (CardiacModel_strain_energy m F p w)) =
    match heap w !! compressibility m with
    | Some (Incompressible _) => <[compressibility m := Incompressible p]> (heap w)
    | _ => heap w
    end.
Proof.
  destruct (heap w !! compressibility m) as [[q|kappa]|] eqn:Hc.
  - rewrite (heap_after_run m F p w _ Hc).
    now rewrite (register_incompressible _ q p w Hc).
  - rewrite (heap_after_run m F p w _ Hc).
    now rewrite (register_compressible _ kappa p w Hc).
  - now apply CardiacModel_strain_energy_invalid.
Qed.

(** X5. An evaluation can be repeated: a second
    [CardiacModel.strain_energy(F, p)] with the same arguments has the
    outcome of the first and leaves the store as the first left it. *)
Theorem evaluation_repeatable m F p w :
  let w1 := snd (CardiacModel_strain_energy m F p w) in
  fst (CardiacModel_strain_energy m F p w1) = fst (CardiacModel_strain_energy m F p w) /\
  heap (snd (CardiacModel_strain_energy m F p w1)) = heap w1.
Proof.
  intros w1. split.
  - apply outcome_by_configuration. apply evaluation_configuration.
  - rewrite (heap_after_evaluation m F p w1). subst w1.
    rewrite (heap_after_evaluation m F p w).
    destruct (heap w !! compressibility m) as [[q|kappa]|] eqn:Hc.
    + rewrite lookup_insert_eq. apply insert_insert_eq.
    + now rewrite Hc.
    + now rewrite Hc.
Qed.

(** X6. Models that refer to different compressibility objects do not
    disturb each other: evaluating one leaves the object of the other
    untouched, and the store after evaluating both does not depend on the
    order of the two evaluations. *)
Theorem evaluations_on_distinct_objects_commute m1 m2 F1 F2 p1 p2 w :
  compressibility m1 <> compressibility m2 ->
  heap (snd (CardiacModel_strain_energy m1 F1 p1 w)) !! compressibility m2
    = heap w !! compressibility m2 /\
  heap (snd (CardiacModel_strain_energy m2 F2 p2
               (snd (CardiacModel_strain_energy m1 F1 p1 w))))
    = heap (snd (CardiacModel_strain_energy m1 F1 p1
                   (snd (CardiacModel_strain_energy m2 F2 p2 w)))).
Proof.
  intros Hne.
  assert (Hframe : forall m m' F p w0,
            compressibility m <> compressibility m' ->
            heap (snd (CardiacModel_strain_energy m F p w0)) !! compressibility m'
              = heap w0 !! compressibility m').
  { intros m m' F p w0 Hmm'. rewrite (heap_after_evaluation m F p w0).
    destruct (heap w0 !! compressibility m) as [[q|kappa]|]; [|reflexivity..].
    now rewrite lookup_insert_ne. }
  split; [now apply Hframe|].
  rewrite (heap_after_evaluation m2 F2 p2 (snd (CardiacModel_strain_energy m1 F1 p1 w))).
  rewrite (heap_after_evaluation m1 F1 p1 (snd (CardiacModel_strain_energy m2 F2 p2 w))).
  rewrite (Hframe m1 m2 F1 p1 w Hne), (Hframe m2 m1 F2 p2 w (not_eq_sym Hne)).
  rewrite (heap_after_evaluation m1 F1 p1 w), (heap_after_evaluation m2 F2 p2 w).
  destruct (heap w !! compressibility m1) as [[q1|k1]|];
    destruct (heap w !! compressibility m2) as [[q2|k2]|]; try reflexivity.
  now apply insert_insert_ne.
Qed.

(** ** [__str__] *)

Lemma str_some (l : loc) (o : CompressibilityObj E) w :
  heap w !! l = Some o ->
  str l w =
    (Returns (if class_is_compressible o then "κ (J ln(J) - J + 1)" else "p (J - 1)"), w).
Proof.
  intros Hl. unfold str.
  rewrite (bind_returns _ _ _ _ _ (get_obj_some _ _ _ Hl)).
  now destruct o.
Qed.

(** X7. [str] of a compressibility object shows the law of its class and
    nothing of its state: it is the same string after any sequence of
    calls, it is different for the two classes, and printing changes
    nothing. *)
Theorem str_constant (l : loc) w o (acts : list (action E)) :
  heap w !! l = Some o ->
  exists s : string,
    str l w = (Returns s, w) /\
    str l (perform_all acts w) = (Returns s, perform_all acts w) /\
    (s = "p (J - 1)" <-> fst (is_compressible l w) = Returns false).
Proof.
  intros Hl. eexists. split; [apply (str_some l o w Hl)|]. split.
  - pose proof (perform_all_class acts w l) as Hclass.
    unfold class_at in Hclass. rewrite Hl in Hclass.
    destruct (heap (perform_all acts w) !! l) as [o'|] eqn:Hl'; [|discriminate].
    cbn in Hclass. injection Hclass as Hclass.
    now rewrite (str_some l o' _ Hl'), Hclass.
  - rewrite (is_compressible_some l o w Hl). cbn [fst].
    destruct o; cbn; split; intros Heq; try reflexivity; discriminate Heq.
Qed.

End Composed.

(** ** The compressible energy over the reals *)

Section PenaltyShape.

Local Open Scope R_scope.

Lemma penalty_at_one : penalty 1 = 0.
Proof. unfold penalty. rewrite ln_1. ring. Qed.

Lemma penalty_increasing a b : 1 <= a -> a < b -> penalty a < penalty b.
Proof.
  intros Ha Hab.
  destruct (MVT_cor2 penalty Rpower.ln a b Hab) as (c & Hmvt & Hc).
  { intros c Hc. apply penalty_derivative. lra. }
  assert (Hln : 0 < Rpower.ln c).
  { rewrite <- ln_1. apply ln_increasing; lra. }
  assert (Hpos : 0 < Rpower.ln c * (b - a)) by (apply Rmult_lt_0_compat; lra).
  lra.
Qed.

Lemma penalty_decreasing a b : 0 < a -> a < b -> b <= 1 -> penalty b < penalty a.
Proof.
  intros Ha Hab Hb.
  destruct (MVT_cor2 penalty Rpower.ln a b Hab) as (c & Hmvt & Hc).
  { intros c Hc. apply penalty_derivative. lra. }
  assert (Hln : Rpower.ln c < 0).
  { rewrite <- ln_1. apply ln_increasing; lra. }
  assert (Hneg : 0 < (- Rpower.ln c) * (b - a)) by (apply Rmult_lt_0_compat; lra).
  lra.
Qed.

Lemma Compressible_strain_energy_real (l : loc) (w : world R) (kappa J : R) :
  heap w !! l = Some (Compressible kappa) ->
  fst (Compressible_strain_energy l J w) = Returns (kappa * penalty J).
Proof.
  intros Hl. rewrite (Compressible_strain_energy_run l J w kappa Hl).
  cbn [fst real_ops mul add sub ln lit]. unfold penalty, pynum_value. reflexivity.
Qed.

(** X8. Over the reals, with a positive coefficient [kappa] and a positive
    [J], [Compressible.strain_energy(J)] is never negative and is zero
    exactly at [J = 1]. *)
Theorem compressible_energy_zero_only_at_one (l : loc) (w : world R) (kappa J : R) :
  heap w !! l = Some (Compressible kappa) ->
  0 < kappa -> 0 < J ->
  exists v : R,
    fst (Compressible_strain_energy l J w) = Returns v /\
    0 <= v /\ (v = 0 <-> J = 1).
Proof.
  intros Hl Hk HJ. exists (kappa * penalty J).
  split; [now apply Compressible_strain_energy_real|].
  destruct (Req_dec J 1) as [->|Hne].
  - rewrite penalty_at_one. split; [lra|]. split; [reflexivity|intros _; ring].
  - pose proof (penalty_positive J HJ Hne) as Hpos.
    assert (Hv : 0 < kappa * penalty J) by now apply Rmult_lt_0_compat.
    split; [lra|]. split; [lra|]. intros HJ1. now destruct Hne.
Qed.

(** X9. Over the reals, with a positive coefficient, compression costs
    more than expansion: for [0 < h < 1] the energy at [J = 1 - h] is
    greater than the energy at [J = 1 + h]. *)
Theorem compressible_energy_penalises_compression_more
    (l : loc) (w : world R) (kappa h : R) :
  heap w !! l = Some (Compressible kappa) ->
  0 < kappa -> 0 < h < 1 ->
  exists v_low v_high : R,
    fst (Compressible_strain_energy l (1 - h) w) = Returns v_low /\
    fst (Compressible_strain_energy l (1 + h) w) = Returns v_high /\
    v_high < v_low.
Proof.
  intros Hl Hk Hh. exists (kappa * penalty (1 - h)), (kappa * penalty (1 + h)).
  split; [now apply Compressible_strain_energy_real|].
  split; [now apply Compressible_strain_energy_real|].
  pose proof (penalty_gap_positive h Hh) as Hgap. unfold penalty_gap in Hgap.
  apply Rmult_lt_compat_l; lra.
Qed.

(** X10. Over the reals, with a positive coefficient, the energy grows
    with the distance of [J] from one: it increases with [J] above one and
    decreases with [J] between zero and one. *)
Theorem compressible_energy_grows_away_from_one
    (l : loc) (w : world R) (kappa a b : R) :
  heap w !! l = Some (Compressible kappa) ->
  0 < kappa -> 0 < a -> a < b ->
  exists va vb : R,
    fst (Compressible_strain_energy l a w) = Returns va /\
    fst (Compressible_strain_energy l b w) = Returns vb /\
    (1 <= a -> va < vb) /\ (b <= 1 -> vb < va).
Proof.
  intros Hl Hk Ha Hab. exists (kappa * penalty a), (kappa * penalty b).
  split; [now apply Compressible_strain_energy_real|].
  split; [now apply Compressible_strain_energy_real|].
  split.
  - intros H1. apply Rmult_lt_compat_l; [exact Hk|]. now apply penalty_increasing.
  - intros H1. apply Rmult_lt_compat_l; [exact Hk|]. now apply penalty_decreasing.
Qed.

End PenaltyShape.

(** ** The split on real tensors *)

Section Split.

Local Open Scope R_scope.

Variable T : Type.
Variable scale : R -> T -> T.
Variable det : T -> R.

Local Abbreviation ops := (value_ops T scale det).
Local Abbreviation evaluate := (@CardiacModel_strain_energy (value T) ops).

Implicit Types (w : world (value T)) (m : CardiacModel (value T)).


Lemma one_value : Q2R 1 = 1.
Proof. unfold Q2R; cbn. lra. Qed.


Lemma Rpower_one y : Rpower 1 y = 1.
Proof. unfold Rpower. rewrite ln_1, Rmult_0_r. apply exp_0. Qed.


(** X12. Where the deformation keeps the volume ([det Fe = 1]) and scaling
    by one is the identity, the two compressibility models give the same
    total energy: with a real coefficient the compressible model, and with
    any real multiplier the incompressible model, both return
    [material(Fe) + active(F) + 0]. *)
Theorem models_agree_without_volume_change
    (mat : HyperElasticMaterial (value T)) (act : ActiveModel (value T))
    (c1 c2 : loc) (F0 Fe0 : T) (k p0 : R) (q p : option (value T)) w :
  (forall t : T, scale 1 t = t) ->
  heap w !! c1 = Some (Compressible (Scalar k)) ->
  heap w !! c2 = Some (Incompressible q) ->
  active_Fe act (Tensor F0) = Tensor Fe0 ->
  det Fe0 = 1 ->
  let total :=
    Returns (@add (value T) ops
               (@add (value T) ops (material_strain_energy mat (Tensor Fe0))
                                   (active_strain_energy act (Tensor F0)))
               (Scalar 0)) in
  fst (evaluate
         {| material := mat; active := act; compressibility := c1 |} (Tensor F0) p w)
    = total /\
  fst (evaluate
         {| material := mat; active := act; compressibility := c2 |}
         (Tensor F0) (Some (Scalar p0)) w)
    = total.
Proof.
  intros Hscale H1 H2 HFe HJ total. subst total. split.
  - rewrite (@evaluation_compressible (value T) ops
               {| material := mat; active := act; compressibility := c1 |}
               (Tensor F0) p w (Scalar k) H1).
    cbn [material active compressibility]. rewrite HFe.
    cbn [Jacobian lit pow mul add sub ln value_ops
         value_Jacobian value_pow value_mul value_add value_sub value_ln].
    unfold pynum_value. rewrite HJ, Rpower_one, !Hscale, ln_1.
    do 2 f_equal. f_equal. ring.
  - rewrite (@evaluation_incompressible (value T) ops
               {| material := mat; active := act; compressibility := c2 |}
               (Tensor F0) (Some (Scalar p0)) w q H2).
    cbn [material active compressibility]. rewrite HFe.
    cbn [Jacobian lit pow mul add sub ln value_ops
         value_Jacobian value_pow value_mul value_add value_sub value_ln].
    unfold pynum_value. rewrite HJ, one_value, !Hscale.
    do 2 f_equal. f_equal. ring.
Qed.

End Split.

(** ** The further properties at the sample data *)

Section FurtherSampleRuns.

Import Sample Sample2.

Lemma two_objects_at_0 :
  heap two_objects !! compressibility model = Some (Incompressible None).
Proof. reflexivity. Defined.

Lemma two_objects_at_1 :
  heap two_objects !! compressibility model_b
    = Some (Compressible (Lit (PyFloat 1000))).
Proof. reflexivity. Defined.

Lemma incompressible_evaluation_needs_multiplier_witness :
  fst (CardiacModel_strain_energy model F (Some p) fresh_incompressible) =
    Returns (Add (Add (Mul (Sym "mu") (Mul one Fe_sample))
                      (Mul (Sym "Ta") (Mul one F)))
                 (Mul p (Sub (Det Fe_sample) one))) /\
  heap (snd (CardiacModel_strain_energy model F (Some p) fresh_incompressible)) !! 0%nat
    = Some (Incompressible (Some p)).
Proof.
  destruct (incompressible_evaluation_needs_multiplier model F (Some p)
              fresh_incompressible None fresh_incompressible_at_0)
    as (_ & Hvalue & Hstored).
  split; [exact (Hvalue p eq_refl)|exact Hstored].
Defined.

Lemma evaluation_calls_in_order_witness :
  fst (CardiacModel_strain_energy model F None fresh_incompressible)
    = Raises (MissingModelAttribute "p" "Incompressible") /\
  trace (snd (CardiacModel_strain_energy model F None fresh_incompressible)) =
    [ CallRegister 0%nat None; CallFe F; CallJacobian Fe_sample;
      CallIsCompressible 0%nat;
      CallMaterialEnergy (Mul one Fe_sample); CallActiveEnergy (Mul one F);
      CallVolumetricEnergy 0%nat (Det Fe_sample) ].
Proof.
  split; [reflexivity|].
  exact (evaluation_calls_in_order model F None fresh_incompressible _
           fresh_incompressible_at_0).
Defined.

Lemma objects_keep_class_and_coefficient_witness :
  heap (perform_all
          [DoRegister 1%nat (Some p); DoCardiacStrainEnergy model_b F (Some p);
           DoCardiacStrainEnergy model F None]
          two_objects) !! 1%nat
    = Some (Compressible (Lit (PyFloat 1000))).
Proof.
  destruct (objects_keep_class_and_coefficient
              [DoRegister 1%nat (Some p); DoCardiacStrainEnergy model_b F (Some p);
               DoCardiacStrainEnergy model F None]
              two_objects) as (_ & Hkappa & _).
  exact (Hkappa 1%nat _ two_objects_at_1).
Defined.

Lemma evaluations_on_distinct_objects_commute_witness :
  heap (snd (CardiacModel_strain_energy model F (Some p) two_objects)) !! 1%nat
    = Some (Compressible (Lit (PyFloat 1000))) /\
  heap (snd (CardiacModel_strain_energy model_b F None
               (snd (CardiacModel_strain_energy model F (Some p) two_objects))))
    = heap (snd (CardiacModel_strain_energy model F (Some p)
                   (snd (CardiacModel_strain_energy model_b F None two_objects)))).
Proof.
  assert (Hne : compressibility model <> compressibility model_b) by discriminate.
  destruct (evaluations_on_distinct_objects_commute model model_b F F (Some p) None
              two_objects Hne) as [Hframe Hcomm].
  split; [|exact Hcomm].
  rewrite <- two_objects_at_1. exact Hframe.
Defined.

Lemma str_constant_witness :
  fst (str 0%nat
         (perform_all [DoRegister 0%nat (Some p); DoCardiacStrainEnergy model F None]
            fresh_incompressible))
    = Returns "p (J - 1)".
Proof.
  destruct (str_constant 0%nat fresh_incompressible _
              [DoRegister 0%nat (Some p); DoCardiacStrainEnergy model F None]
              fresh_incompressible_at_0) as (s & Hnow & Hafter & _).
  rewrite Hafter. cbn [fst].
  assert (Hs : fst (str 0%nat fresh_incompressible) = Returns s) by now rewrite Hnow.
  rewrite <- Hs. reflexivity.
Defined.

End FurtherSampleRuns.

Section RealSampleRuns.

Import RealSample.

Local Open Scope R_scope.

Lemma real_compressible_at_0 :
  heap Sample.real_compressible !! 0%nat = Some (Compressible (Q2R 1000)).
Proof. reflexivity. Defined.

Lemma default_kappa_positive : 0 < Q2R 1000.
Proof. unfold Q2R; cbn. lra. Defined.

Lemma compressible_energy_zero_only_at_one_witness :
  exists v : R,
    fst (Compressible_strain_energy 0%nat 2 Sample.real_compressible) = Returns v /\
    0 <= v /\ (v = 0 <-> 2 = 1).
Proof.
  apply (compressible_energy_zero_only_at_one 0%nat Sample.real_compressible
           (Q2R 1000) 2 real_compressible_at_0 default_kappa_positive).
  lra.
Defined.

Lemma compressible_energy_penalises_compression_more_witness :
  exists v_low v_high : R,
    fst (Compressible_strain_energy 0%nat (1 - 1 / 2) Sample.real_compressible)
      = Returns v_low /\
    fst (Compressible_strain_energy 0%nat (1 + 1 / 2) Sample.real_compressible)
      = Returns v_high /\
    v_high < v_low.
Proof.
  apply (compressible_energy_penalises_compression_more 0%nat Sample.real_compressible
           (Q2R 1000) (1 / 2) real_compressible_at_0 default_kappa_positive).
  lra.
Defined.

Lemma compressible_energy_grows_away_from_one_witness :
  exists va vb : R,
    fst (Compressible_strain_energy 0%nat 2 Sample.real_compressible) = Returns va /\
    fst (Compressible_strain_energy 0%nat 3 Sample.real_compressible) = Returns vb /\
    va < vb.
Proof.
  destruct (compressible_energy_grows_away_from_one 0%nat Sample.real_compressible
              (Q2R 1000) 2 3 real_compressible_at_0 default_kappa_positive)
    as (va & vb & Ha & Hb & Hup & _); [lra|lra|].
  exists va, vb. split; [exact Ha|]. split; [exact Hb|]. apply Hup. lra.
Defined.


Lemma diag_scale_one (d : diag) : diag_scale 1 d = d.
Proof.
  destruct d as [a b c]. unfold diag_scale. cbn.
  now rewrite !Rmult_1_l.
Defined.

Lemma store_at_0 :
  heap store !! 0%nat = Some (Compressible (Scalar (Q2R 1000))).
Proof. reflexivity. Defined.

Lemma store_at_1 : heap store !! 1%nat = Some (Incompressible None).
Proof. reflexivity. Defined.


Lemma shear_free_det : diag_det shear_free = 1.
Proof. unfold diag_det, shear_free. cbn. lra. Defined.


Lemma models_agree_without_volume_change_witness :
  fst (CardiacModel_strain_energy compressible_model (Tensor shear_free) None store)
    = fst (CardiacModel_strain_energy incompressible_model (Tensor shear_free)
             (Some (Scalar 5)) store).
Proof.
  destruct (models_agree_without_volume_change diag diag_scale diag_det
              stub_material stub_active 0%nat 1%nat shear_free shear_free
              (Q2R 1000) 5 None None store
              diag_scale_one store_at_0 store_at_1 eq_refl shear_free_det)
    as [Hc Hi].
  unfold compressible_model, incompressible_model.
  exact (eq_trans Hc (eq_sym Hi)).
Defined.

End RealSampleRuns.
